(** * The Weibull survival model of the PyData NY 2019 tutorial notebooks

    The notebooks (Part 2, Part 3, Part 6) define a two-parameter Weibull
    hazard model over numpy arrays, its censored log-likelihood, and the
    Delta-method variance of the fitted survival function.

    Numbers.  A numpy float is modelled as an exact real number or one of the
    special values [+inf], [-inf], [nan] that numpy produces at the singular
    points of its operations (division by zero, logarithm of a non-positive
    number, [inf - inf], [0 * inf], ...).  Arithmetic on finite values is
    exact: rounding, overflow and underflow are not modelled, and zero has no
    sign (it behaves as [+0.0]).  The properties below are of three kinds:
    exceptions and special values, on which the idealisation has no bearing;
    evaluations at inputs where every intermediate value is exact in binary
    floating point; and derivatives, which are statements about the real
    functions that the code computes.

    Arrays.  An [ndarray] is a scalar or a one-dimensional array; binary
    operations broadcast the way numpy does and raise [ValueError] on a
    shape mismatch.  Tuple unpacking [lambda_, rho_ = params] raises
    [ValueError] unless [params] has exactly two elements. *)

From Stdlib Require Import Reals Lra List ZArith Bool.
Import ListNotations.
Open Scope R_scope.

(** ** Exceptions and the error monad *)

Inductive exn := ValueError | TypeError | LinAlgError | NameError.

Inductive result (A : Type) : Type :=
| Ok (a : A)
| Raise (e : exn).
Arguments Ok {A} a.
Arguments Raise {A} e.

Definition bind {A B} (c : result A) (k : A -> result B) : result B :=
  match c with
  | Ok a => k a
  | Raise e => Raise e
  end.

Notation "x <- c ;; k" := (bind c (fun x => k))
  (at level 61, c at next level, right associativity).
Notation "' p <- c ;; k" := (bind c (fun x => let 'p := x in k))
  (at level 61, p pattern, c at next level, right associativity).

Definition is_ok {A} (c : result A) : bool :=
  match c with Ok _ => true | Raise _ => false end.

(** ** numpy floats *)

Inductive float := Fin (r : R) | PInf | NInf | NaN.

Inductive sgn := Neg | Zero | Pos.

Definition Rsgn (x : R) : sgn :=
  match total_order_T x 0 with
  | inleft (left _) => Neg
  | inleft (right _) => Zero
  | inright _ => Pos
  end.

Definition sgn_opp (s : sgn) : sgn :=
  match s with Neg => Pos | Zero => Zero | Pos => Neg end.

(** [sign * inf]; [0 * inf] is [nan]. *)
Definition inf_of (s : sgn) : float :=
  match s with Pos => PInf | Neg => NInf | Zero => NaN end.

(** unary [-x] *)
Definition fneg (x : float) : float :=
  match x with
  | Fin a => Fin (- a)
  | PInf => NInf
  | NInf => PInf
  | NaN => NaN
  end.

(** [x + y] *)
Definition fadd (x y : float) : float :=
  match x, y with
  | NaN, _ | _, NaN => NaN
  | Fin a, Fin b => Fin (a + b)
  | PInf, NInf | NInf, PInf => NaN
  | PInf, _ | _, PInf => PInf
  | NInf, _ | _, NInf => NInf
  end.

(** [x - y] *)
Definition fsub (x y : float) : float := fadd x (fneg y).

(** [x * y] *)
Definition fmul (x y : float) : float :=
  match x, y with
  | NaN, _ | _, NaN => NaN
  | Fin a, Fin b => Fin (a * b)
  | Fin a, PInf | PInf, Fin a => inf_of (Rsgn a)
  | Fin a, NInf | NInf, Fin a => inf_of (sgn_opp (Rsgn a))
  | PInf, PInf | NInf, NInf => PInf
  | PInf, NInf | NInf, PInf => NInf
  end.

(** [x / y]; a finite value divided by zero is a signed infinity
    ([0 / 0] is [nan]), with a RuntimeWarning and no exception. *)
Definition fdiv (x y : float) : float :=
  match x, y with
  | NaN, _ | _, NaN => NaN
  | Fin a, Fin b =>
      match Rsgn b with
      | Zero => inf_of (Rsgn a)
      | _ => Fin (a / b)
      end
  | Fin _, (PInf | NInf) => Fin 0
  | PInf, Fin b => match Rsgn b with Neg => NInf | _ => PInf end
  | NInf, Fin b => match Rsgn b with Neg => PInf | _ => NInf end
  | (PInf | NInf), (PInf | NInf) => NaN
  end.

Definition is_int (y : R) : bool :=
  if Req_dec_T y (IZR (Int_part y)) then true else false.

Definition is_odd_int (y : R) : bool := is_int y && Z.odd (Int_part y).

(** [Rabs a] compared with 1 *)
Definition abs_cmp1 (a : R) : comparison :=
  match total_order_T (Rabs a) 1 with
  | inleft (left _) => Lt
  | inleft (right _) => Eq
  | inright _ => Gt
  end.

(** [x ** y], the C library [pow] that [np.power] calls. *)
Definition fpow (x y : float) : float :=
  match y with
  | Fin b =>
      match Rsgn b with
      | Zero => Fin 1
      | sb =>
          match x with
          | NaN => NaN
          | Fin a =>
              match Rsgn a with
              | Pos => Fin (Rpower a b)
              | Zero => match sb with Pos => Fin 0 | _ => PInf end
              | Neg => if is_int b then Fin (powerRZ a (Int_part b)) else NaN
              end
          | PInf => match sb with Pos => PInf | _ => Fin 0 end
          | NInf =>
              match sb with
              | Pos => if is_odd_int b then NInf else PInf
              | _ => Fin 0
              end
          end
      end
  | PInf =>
      match x with
      | NaN => NaN
      | Fin a => match abs_cmp1 a with Lt => Fin 0 | Eq => Fin 1 | Gt => PInf end
      | PInf | NInf => PInf
      end
  | NInf =>
      match x with
      | NaN => NaN
      | Fin a => match abs_cmp1 a with Lt => PInf | Eq => Fin 1 | Gt => Fin 0 end
      | PInf | NInf => Fin 0
      end
  | NaN =>
      match x with
      | Fin a => if Req_dec_T a 1 then Fin 1 else NaN
      | _ => NaN
      end
  end.

(** [np.log]: [-inf] at zero and [nan] below it, with a RuntimeWarning. *)
Definition flog (x : float) : float :=
  match x with
  | Fin a =>
      match Rsgn a with
      | Pos => Fin (ln a)
      | Zero => NInf
      | Neg => NaN
      end
  | PInf => PInf
  | NInf => NaN
  | NaN => NaN
  end.

(** [np.exp] *)
Definition fexp (x : float) : float :=
  match x with
  | Fin a => Fin (exp a)
  | PInf => PInf
  | NInf => Fin 0
  | NaN => NaN
  end.

Definition is_finite (x : float) : bool :=
  match x with Fin _ => true | _ => false end.

(** ** numpy arrays *)

Inductive ndarray := Scalar (x : float) | Array (xs : list float).

Definition nd_map (f : float -> float) (a : ndarray) : ndarray :=
  match a with
  | Scalar x => Scalar (f x)
  | Array xs => Array (map f xs)
  end.

Fixpoint zip_with (f : float -> float -> float) (xs ys : list float) : list float :=
  match xs, ys with
  | x :: xs', y :: ys' => f x y :: zip_with f xs' ys'
  | _, _ => []
  end.

(** A binary ufunc on two arrays: equal shapes combine elementwise, a scalar
    or a one-element array is stretched, anything else raises. *)
Definition broadcast (f : float -> float -> float) (a b : ndarray) : result ndarray :=
  match a, b with
  | Scalar x, Scalar y => Ok (Scalar (f x y))
  | Scalar x, Array ys => Ok (Array (map (f x) ys))
  | Array xs, Scalar y => Ok (Array (map (fun x => f x y) xs))
  | Array xs, Array ys =>
      if Nat.eqb (length xs) (length ys) then Ok (Array (zip_with f xs ys))
      else match xs, ys with
           | [x], _ => Ok (Array (map (f x) ys))
           | _, [y] => Ok (Array (map (fun x => f x y) xs))
           | _, _ => Raise ValueError
           end
  end.

(** array (op) python-scalar and python-scalar (op) array *)
Definition nd_div_s (a : ndarray) (s : float) := nd_map (fun x => fdiv x s) a.
Definition nd_pow_s (a : ndarray) (s : float) := nd_map (fun x => fpow x s) a.
Definition nd_sub_s (a : ndarray) (s : float) := nd_map (fun x => fsub x s) a.
Definition s_mul_nd (s : float) (a : ndarray) := nd_map (fun x => fmul s x) a.
Definition s_add_nd (s : float) (a : ndarray) := nd_map (fun x => fadd s x) a.
Definition nd_neg (a : ndarray) := nd_map fneg a.
Definition nd_mul (a b : ndarray) := broadcast fmul a b.

Definition np_log (a : ndarray) := nd_map flog a.
Definition np_exp (a : ndarray) := nd_map fexp a.

(** [np.sum]: in exact arithmetic the order of summation is immaterial
    ([fadd] is associative and commutative, see [fadd_assoc], [fadd_comm]). *)
Definition np_sum (a : ndarray) : float :=
  match a with
  | Scalar x => x
  | Array xs => fold_right fadd (Fin 0) xs
  end.

(** ** The model functions *)

(** [lambda_, rho_ = params] *)
Definition unpack2 (params : list float) : result (float * float) :=
  match params with
  | [lambda_; rho_] => Ok (lambda_, rho_)
  | _ => Raise ValueError
  end.

(** [cumulative_hazard] has the same text in Part 2, Part 3 and Part 6. *)
Definition cumulative_hazard (params : list float) (t : ndarray) : result ndarray :=
  '(lambda_, rho_) <- unpack2 params ;;
  Ok (nd_pow_s (nd_div_s t lambda_) rho_).

Module Part2.

Definition hazard (params : list float) (t : ndarray) : result ndarray :=
  '(lambda_, rho_) <- unpack2 params ;;
  Ok (s_mul_nd (fdiv rho_ lambda_)
               (nd_pow_s (nd_div_s t lambda_) (fsub rho_ (Fin 1)))).

Definition log_hazard (params : list float) (t : ndarray) : result ndarray :=
  h <- hazard params t ;;
  Ok (np_log h).

Definition log_likelihood (params : list float) (t e : ndarray) : result float :=
  lh <- log_hazard params t ;;
  observed <- nd_mul e lh ;;
  H <- cumulative_hazard params t ;;
  Ok (fsub (np_sum observed) (np_sum H)).

Definition negative_log_likelihood (params : list float) (t e : ndarray) : result float :=
  ll <- log_likelihood params t e ;;
  Ok (fneg ll).

End Part2.

Module Part3.

Definition log_hazard (params : list float) (t : ndarray) : result ndarray :=
  '(lambda_, rho_) <- unpack2 params ;;
  Ok (s_add_nd (fsub (flog rho_) (flog lambda_))
               (s_mul_nd (fsub rho_ (Fin 1))
                         (nd_sub_s (np_log t) (flog lambda_)))).

Definition log_likelihood (params : list float) (t e : ndarray) : result float :=
  lh <- log_hazard params t ;;
  observed <- nd_mul e lh ;;
  H <- cumulative_hazard params t ;;
  Ok (fsub (np_sum observed) (np_sum H)).

Definition negative_log_likelihood (params : list float) (t e : ndarray) : result float :=
  ll <- log_likelihood params t e ;;
  Ok (fneg ll).

End Part3.

(** ** Two-dimensional linear algebra of the Delta method

    The gradient with respect to the two parameters has shape (2,) and the
    Hessian has shape (2, 2).  [fvec2] and [fmat2] are the arrays of floats
    that the code holds; [vec2] and [mat2] are their real counterparts. *)

Definition vec2 : Type := R * R.
Definition mat2 : Type := vec2 * vec2.   (* rows *)

Definition fvec2 : Type := float * float.
Definition fmat2 : Type := fvec2 * fvec2.   (* rows *)

Definition of_real_vec (v : vec2) : fvec2 := (Fin (fst v), Fin (snd v)).

Definition of_real_mat (m : mat2) : fmat2 :=
  (of_real_vec (fst m), of_real_vec (snd m)).

Definition to_real_mat (m : fmat2) : option mat2 :=
  match m with
  | ((Fin a, Fin b), (Fin c, Fin d)) => Some ((a, b), (c, d))
  | _ => None
  end.

(** [v @ m] for a 1-D [v] and a 2-D [m], on floats *)
Definition fvec_mat (v : fvec2) (m : fmat2) : fvec2 :=
  let '(v1, v2) := v in
  let '((m11, m12), (m21, m22)) := m in
  (fadd (fmul v1 m11) (fmul v2 m21), fadd (fmul v1 m12) (fmul v2 m22)).

(** [v @ w] for two 1-D arrays, on floats *)
Definition fvec_dot (v w : fvec2) : float :=
  let '(v1, v2) := v in
  let '(w1, w2) := w in
  fadd (fmul v1 w1) (fmul v2 w2).



Definition det (m : mat2) : R :=
  let '((m11, m12), (m21, m22)) := m in m11 * m22 - m12 * m21.

(** The inverse of a real matrix by Cramer's rule; a singular one raises
    [LinAlgError]. *)
Definition inv_finite (m : mat2) : result mat2 :=
  let '((m11, m12), (m21, m22)) := m in
  if Req_dec_T (det m) 0 then Raise LinAlgError
  else Ok ((m22 / det m, - m12 / det m), (- m21 / det m, m11 / det m)).

Module Part6.
Section Autograd.

(** autograd runs the function forwards, which raises whatever the function
    raises, and then propagates derivatives backwards.  The values that the
    backward passes compute are the parameters of this section. *)
Variable d_dt : (list float -> ndarray -> result ndarray) ->
                list float -> ndarray -> ndarray.
Variable d_dparams : (list float -> ndarray -> result ndarray) ->
                     list float -> ndarray -> fvec2.
Variable d_dparams3 : (list float -> ndarray -> ndarray -> result float) ->
                      list float -> ndarray -> ndarray -> list float.
Variable d2_dparams2 : (list float -> ndarray -> ndarray -> result float) ->
                       list float -> ndarray -> ndarray -> fmat2.

(** [np.linalg.inv], which numpy hands to LAPACK. *)
Variable np_linalg_inv : fmat2 -> result fmat2.

(** [elementwise_grad(f, argnum=1)] *)
Definition elementwise_grad (f : list float -> ndarray -> result ndarray)
    (params : list float) (t : ndarray) : result ndarray :=
  _ <- f params t ;;
  Ok (d_dt f params t).

(** [grad(f)]: only for functions whose output has one element *)
Definition grad (f : list float -> ndarray -> result ndarray)
    (params : list float) (t : ndarray) : result fvec2 :=
  y <- f params t ;;
  match y with
  | Scalar _ | Array [_] => Ok (d_dparams f params t)
  | Array _ => Raise TypeError
  end.

(** [value_and_grad(f)] *)
Definition value_and_grad (f : list float -> ndarray -> ndarray -> result float)
    (params : list float) (t e : ndarray) : result (float * list float) :=
  v <- f params t e ;;
  Ok (v, d_dparams3 f params t e).

(** [hessian(f)] *)
Definition hessian (f : list float -> ndarray -> ndarray -> result float)
    (params : list float) (t e : ndarray) : result fmat2 :=
  _ <- f params t e ;;
  Ok (d2_dparams2 f params t e).

Definition hazard : list float -> ndarray -> result ndarray :=
  elementwise_grad cumulative_hazard.

Definition log_hazard (params : list float) (t : ndarray) : result ndarray :=
  h <- hazard params t ;;
  Ok (np_log h).

Definition log_likelihood (params : list float) (t e : ndarray) : result float :=
  lh <- log_hazard params t ;;
  observed <- nd_mul e lh ;;
  H <- cumulative_hazard params t ;;
  Ok (fsub (np_sum observed) (np_sum H)).

Definition negative_log_likelihood (params : list float) (t e : ndarray) : result float :=
  ll <- log_likelihood params t e ;;
  Ok (fneg ll).

Definition survival_function (params : list float) (t : ndarray) : result ndarray :=
  H <- cumulative_hazard params t ;;
  Ok (np_exp (nd_neg H)).

(** The fitted parameters [results.x] and the data [T], [E]. *)
Variable estimates_ : list float.
Variables T E : ndarray.

Definition H : result fmat2 := hessian negative_log_likelihood estimates_ T E.

(** [variance_matrix_ = np.linalg.inv(H)], the last assignment of its cell *)
Definition variance_matrix_ : result fmat2 :=
  h <- H ;;
  np_linalg_inv h.

Definition grad_sf : list float -> ndarray -> result fvec2 := grad survival_function.

(** Reading a global of an earlier cell: the name is unbound when the
    assignment raised. *)
Definition global {A : Type} (assigned : result A) : result A :=
  match assigned with
  | Ok a => Ok a
  | Raise _ => Raise NameError
  end.

(** [grad_sf(estimates_, t) @ variance_matrix_ @ grad_sf(estimates_, t)],
    which Python groups to the left. *)
Definition variance_at_t (t : ndarray) : result float :=
  g <- grad_sf estimates_ t ;;
  V <- global variance_matrix_ ;;
  g' <- grad_sf estimates_ t ;;
  Ok (fvec_dot (fvec_mat g V) g').

End Autograd.
End Part6.

(** ** The fitting steps

    The calls of [scipy.optimize.minimize] whose objective is written in the
    notebooks.  (The second call of Part 2 and the last call of Part 3 leave
    the objective as an exercise.)  With [jac=True] the objective is the
    first component of what the function returns. *)

Inductive fit_step :=
| Part2_first_fit          (* minimize(log_likelihood, ...) *)
| Part3_fit_with_jac       (* minimize(negative_log_likelihood, ..., jac=...) *)
| Part6_fit_value_and_grad (* minimize(value_and_grad(negative_log_likelihood), ..., jac=True) *).

Section Fitting.

Variable d_dt : (list float -> ndarray -> result ndarray) ->
                list float -> ndarray -> ndarray.
Variable d_dparams3 : (list float -> ndarray -> ndarray -> result float) ->
                      list float -> ndarray -> ndarray -> list float.

Definition objective (s : fit_step) (params : list float) (t e : ndarray) : result float :=
  match s with
  | Part2_first_fit => Part2.log_likelihood params t e
  | Part3_fit_with_jac => Part3.negative_log_likelihood params t e
  | Part6_fit_value_and_grad =>
      vg <- Part6.value_and_grad d_dparams3
              (Part6.negative_log_likelihood d_dt) params t e ;;
      Ok (fst vg)
  end.

(** [negative_log_likelihood] of the notebook a step belongs to *)
Definition negative_log_likelihood_of (s : fit_step) :
    list float -> ndarray -> ndarray -> result float :=
  match s with
  | Part2_first_fit => Part2.negative_log_likelihood
  | Part3_fit_with_jac => Part3.negative_log_likelihood
  | Part6_fit_value_and_grad => Part6.negative_log_likelihood d_dt
  end.

Definition log_likelihood_of (s : fit_step) :
    list float -> ndarray -> ndarray -> result float :=
  match s with
  | Part2_first_fit => Part2.log_likelihood
  | Part3_fit_with_jac => Part3.log_likelihood
  | Part6_fit_value_and_grad => Part6.log_likelihood d_dt
  end.

End Fitting.

(** ** Reading a finite scalar out of a result *)

Definition real_of (c : result ndarray) : R :=
  match c with
  | Ok (Scalar (Fin r)) => r
  | _ => 0
  end.

(** The contract of autograd's [elementwise_grad] on [cumulative_hazard]:
    at positive parameters and a positive time, the backward pass returns
    the derivative in [t]. *)
Definition autodiff_contract
    (d_dt : (list float -> ndarray -> result ndarray) ->
            list float -> ndarray -> ndarray) : Prop :=
  forall lambda_ rho_ t d,
    0 < lambda_ -> 0 < rho_ -> 0 < t ->
    derivable_pt_lim
      (fun x => real_of (cumulative_hazard [Fin lambda_; Fin rho_] (Scalar (Fin x))))
      t d ->
    d_dt cumulative_hazard [Fin lambda_; Fin rho_] (Scalar (Fin t)) = Scalar (Fin d).

(** A backward pass that satisfies the contract: the hand-derived hazard of
    Part 2. *)
Definition d_dt_by_hand (f : list float -> ndarray -> result ndarray)
    (params : list float) (t : ndarray) : ndarray :=
  match Part2.hazard params t with
  | Ok h => h
  | Raise _ => Scalar NaN
  end.

(** ** Vocabulary of the statements *)

Definition is_one (x : float) : bool :=
  match x with
  | Fin r => if Req_dec_T r 1 then true else false
  | _ => false
  end.

(** The sum of [lh] over the indices that [e] marks as observed. *)
Definition observed_sum (e lh : list float) : float :=
  fold_right fadd (Fin 0)
    (map snd (filter (fun p => is_one (fst p)) (combine e lh))).

Definition as_list (a : ndarray) : list float :=
  match a with Scalar x => [x] | Array xs => xs end.

(** The log-likelihood in the words of the specification: the sum of the
    log-hazard over the observed subjects minus the sum of the cumulative
    hazard over all subjects. *)
Definition log_likelihood_spec
    (log_hazard : list float -> ndarray -> result ndarray)
    (params : list float) (t e : list float) : result float :=
  lh <- log_hazard params (Array t) ;;
  H <- cumulative_hazard params (Array t) ;;
  Ok (fsub (observed_sum e (as_list lh)) (np_sum H)).

Ltac pos :=
  match goal with
  | |- 0 < Rpower _ _ => unfold Rpower; apply exp_pos
  | |- 0 < exp _ => apply exp_pos
  | |- 0 < _ * _ => apply Rmult_lt_0_compat; pos
  | |- 0 < _ / _ => apply Rdiv_lt_0_compat; pos
  | |- _ => lra
  end.

(** ** Further code of the notebooks *)

(** [np.sin]: [nan] at the infinities *)
Definition fsin (x : float) : float :=
  match x with
  | Fin a => Fin (sin a)
  | _ => NaN
  end.

(** Part 3 opens with an algorithm that autograd differentiates. *)
Module Part3_autodiff.

(** [n] rounds of [y = np.sin(y + x)] *)
Fixpoint f_loop (n : nat) (x y : float) : float :=
  match n with
  | O => y
  | S n' => f_loop n' x (fsin (fadd y x))
  end.

Definition f (x : float) : float := f_loop 100 x (Fin 0).

Section Autograd.

(** The value that autograd's backward pass computes for a function of one
    number. *)
Variable d_dx : (float -> float) -> float -> float.

(** [grad(f)] for a function of one number *)
Definition grad (g : float -> float) (x : float) : float := d_dx g x.

Definition grad_f : float -> float := grad f.

End Autograd.

End Part3_autodiff.

(** ** Real-valued counterparts used in the statements *)

Definition float_real (x : float) : R :=
  match x with Fin r => r | _ => 0 end.

(** The iteration of [f] on real numbers, and its derivative in [x] by the
    chain rule ([dy] is the derivative of the running [y]). *)
Fixpoint sin_iter (n : nat) (x y : R) : R :=
  match n with
  | O => y
  | S n' => sin_iter n' x (sin (y + x))
  end.

Fixpoint d_sin_iter (n : nat) (x y dy : R) : R :=
  match n with
  | O => dy
  | S n' => d_sin_iter n' x (sin (y + x)) (cos (y + x) * (dy + 1))
  end.

(** ** Gradients and Hessians of real functions of the two parameters *)

Definition is_gradient_at (f : R -> R -> R) (l r : R) (g : vec2) : Prop :=
  derivable_pt_lim (fun x => f x r) l (fst g) /\
  derivable_pt_lim (fun y => f l y) r (snd g).



(** The survival function at time [t] and the negative log-likelihood of the
    data, as real functions of the two parameters. *)
Definition survival_R (t lambda_ rho_ : R) : R :=
  real_of (Part6.survival_function [Fin lambda_; Fin rho_] (Scalar (Fin t))).


(** The contract of autograd's [grad] on [survival_function]: at a positive
    scale and a positive time the backward pass returns a gradient of the
    survival function in the two parameters. *)
Definition grad_contract
    (d_dparams : (list float -> ndarray -> result ndarray) ->
                 list float -> ndarray -> fvec2) : Prop :=
  forall lambda_ rho_ t,
    0 < lambda_ -> 0 < t ->
    exists g : vec2,
      d_dparams Part6.survival_function [Fin lambda_; Fin rho_] (Scalar (Fin t))
        = of_real_vec g /\
      is_gradient_at (survival_R t) lambda_ rho_ g.



(** An inverse that satisfies the contract: Cramer's rule on finite
    entries, [nan] everywhere otherwise. *)
Definition inv_by_hand (m : fmat2) : result fmat2 :=
  match to_real_mat m with
  | Some r =>
      V <- inv_finite r ;;
      Ok (of_real_mat V)
  | None => Ok ((NaN, NaN), (NaN, NaN))
  end.

(** The gradient of [exp(-(t/lambda_)**rho_)] in [(lambda_, rho_)]. *)
Definition survival_gradient (lambda_ rho_ t : R) : vec2 :=
  let H := Rpower (t / lambda_) rho_ in
  (exp (- H) * (rho_ / lambda_ * H), - (exp (- H) * H * ln (t / lambda_))).

(** Backward passes that satisfy the contracts: the gradient above, and the
    Hessian of [(1/lambda_)**rho_], the negative log-likelihood of one
    censored lifetime 1. *)
Definition d_dparams_by_hand (f : list float -> ndarray -> result ndarray)
    (params : list float) (t : ndarray) : fvec2 :=
  match params, t with
  | [Fin l; Fin r], Scalar (Fin x) => of_real_vec (survival_gradient l r x)
  | _, _ => (NaN, NaN)
  end.



(** The contract of autograd's [grad] on [f]: the backward pass returns the
    derivative of [f] wherever it has one. *)
Definition grad_f_contract (d_dx : (float -> float) -> float -> float) : Prop :=
  forall x d,
    derivable_pt_lim (fun z => float_real (Part3_autodiff.f (Fin z))) x d ->
    d_dx Part3_autodiff.f (Fin x) = Fin d.

(** A backward pass that satisfies it: the chain rule along the rounds. *)
Definition d_dx_by_hand (g : float -> float) (x : float) : float :=
  match x with
  | Fin r => Fin (d_sin_iter 100 r 0 0)
  | _ => NaN
  end.

(** * Properties *)

(** ** Signs *)

Lemma Rsgn_pos x : 0 < x -> Rsgn x = Pos.
Proof.
  intros Hx. unfold Rsgn.
  destruct (total_order_T x 0) as [[Hlt | Heq] | Hgt]; try reflexivity; lra.
Qed.

Lemma Rsgn_zero : Rsgn 0 = Zero.
Proof.
  unfold Rsgn.
  destruct (total_order_T 0 0) as [[Hlt | Heq] | Hgt]; try reflexivity; lra.
Qed.

Lemma Rsgn_neg x : x < 0 -> Rsgn x = Neg.
Proof.
  intros Hx. unfold Rsgn.
  destruct (total_order_T x 0) as [[Hlt | Heq] | Hgt]; try reflexivity; lra.
Qed.

Lemma Rsgn_Zero_inv x : Rsgn x = Zero -> x = 0.
Proof.
  unfold Rsgn.
  destruct (total_order_T x 0) as [[Hlt | Heq] | Hgt]; intros E; try discriminate; exact Heq.
Qed.

(** ** The float operations on finite arguments *)

Lemma fdiv_pos a b : 0 < b -> fdiv (Fin a) (Fin b) = Fin (a / b).
Proof. intros Hb. simpl. now rewrite (Rsgn_pos b Hb). Qed.

Lemma fpow_pos a b : 0 < a -> fpow (Fin a) (Fin b) = Fin (Rpower a b).
Proof.
  intros Ha. simpl. rewrite (Rsgn_pos a Ha).
  destruct (Rsgn b) eqn:Eb; try reflexivity.
  apply Rsgn_Zero_inv in Eb. subst b. now rewrite Rpower_O.
Qed.

Lemma fpow_zero_pos b : 0 < b -> fpow (Fin 0) (Fin b) = Fin 0.
Proof. intros Hb. simpl. now rewrite (Rsgn_pos b Hb), Rsgn_zero. Qed.

Lemma flog_pos a : 0 < a -> flog (Fin a) = Fin (ln a).
Proof. intros Ha. simpl. now rewrite (Rsgn_pos a Ha). Qed.

Lemma flog_zero : flog (Fin 0) = NInf.
Proof. simpl. now rewrite Rsgn_zero. Qed.

Lemma flog_neg a : a < 0 -> flog (Fin a) = NaN.
Proof. intros Ha. simpl. now rewrite (Rsgn_neg a Ha). Qed.

Lemma fneg_involutive x : fneg (fneg x) = x.
Proof. destruct x; simpl; try reflexivity. f_equal. lra. Qed.

(** ** The model functions at positive parameters *)

Lemma cumulative_hazard_pos lambda_ rho_ t :
  0 < lambda_ -> 0 < t ->
  cumulative_hazard [Fin lambda_; Fin rho_] (Scalar (Fin t))
  = Ok (Scalar (Fin (Rpower (t / lambda_) rho_))).
Proof.
  intros Hl Ht. unfold cumulative_hazard, nd_pow_s, nd_div_s. cbn [unpack2 bind nd_map].
  rewrite (fdiv_pos t lambda_ Hl), fpow_pos; [reflexivity|].
  now apply Rdiv_lt_0_compat.
Qed.

Lemma hazard_pos lambda_ rho_ t :
  0 < lambda_ -> 0 < t ->
  Part2.hazard [Fin lambda_; Fin rho_] (Scalar (Fin t))
  = Ok (Scalar (Fin (rho_ / lambda_ * Rpower (t / lambda_) (rho_ - 1)))).
Proof.
  intros Hl Ht. unfold Part2.hazard, s_mul_nd, nd_pow_s, nd_div_s. cbn [unpack2 bind nd_map].
  rewrite (fdiv_pos t lambda_ Hl), (fdiv_pos rho_ lambda_ Hl).
  cbn [fsub fneg fadd]. rewrite fpow_pos by (now apply Rdiv_lt_0_compat).
  reflexivity.
Qed.

(** ** Derivatives *)

(** A derivative depends only on the function near the point. *)
Lemma derivable_pt_lim_local (f g : R -> R) (t d delta : R) :
  0 < delta ->
  (forall x, Rabs (x - t) < delta -> f x = g x) ->
  derivable_pt_lim g t d ->
  derivable_pt_lim f t d.
Proof.
  intros Hdelta Hfg Hg eps Heps.
  destruct (Hg eps Heps) as [[d1 Hd1pos] Hd1]. simpl in Hd1.
  assert (Hmin : 0 < Rmin d1 delta) by (apply Rmin_pos; assumption).
  exists (mkposreal (Rmin d1 delta) Hmin). simpl. intros h Hh0 Hh.
  assert (Hh1 : Rabs h < d1) by (eapply Rlt_le_trans; [exact Hh | apply Rmin_l]).
  assert (Hh2 : Rabs h < delta) by (eapply Rlt_le_trans; [exact Hh | apply Rmin_r]).
  rewrite (Hfg (t + h)), (Hfg t).
  - now apply Hd1.
  - replace (t - t) with 0 by lra. now rewrite Rabs_R0.
  - now replace (t + h - t) with h by lra.
Qed.

Lemma Rpower_scaled_derivable lambda_ rho_ t :
  0 < lambda_ -> 0 < t ->
  derivable_pt_lim (fun x => Rpower (x / lambda_) rho_) t
                   (rho_ / lambda_ * Rpower (t / lambda_) (rho_ - 1)).
Proof.
  intros Hl Ht.
  replace (rho_ / lambda_ * Rpower (t / lambda_) (rho_ - 1))
    with (rho_ * Rpower (t / lambda_) (rho_ - 1) * (1 / lambda_)) by (field; lra).
  apply (derivable_pt_lim_comp (fun y => id y / lambda_) (fun y => Rpower y rho_)).
  - apply derivable_pt_lim_div_scal. apply derivable_pt_lim_id.
  - apply derivable_pt_lim_power. unfold id. now apply Rdiv_lt_0_compat.
Qed.

Lemma cumulative_hazard_derivable lambda_ rho_ t :
  0 < lambda_ -> 0 < t ->
  derivable_pt_lim
    (fun x => real_of (cumulative_hazard [Fin lambda_; Fin rho_] (Scalar (Fin x))))
    t (rho_ / lambda_ * Rpower (t / lambda_) (rho_ - 1)).
Proof.
  intros Hl Ht.
  apply (derivable_pt_lim_local _ (fun x => Rpower (x / lambda_) rho_) t _ t Ht).
  - intros x Hx.
    assert (0 < x) by (apply Rabs_def2 in Hx; lra).
    now rewrite cumulative_hazard_pos.
  - now apply Rpower_scaled_derivable.
Qed.

Lemma d_dt_by_hand_contract : autodiff_contract d_dt_by_hand.
Proof.
  intros lambda_ rho_ t d Hl Hr Ht Hd. unfold d_dt_by_hand.
  rewrite hazard_pos by assumption. do 2 f_equal.
  eapply uniqueness_limite; [| exact Hd].
  now apply cumulative_hazard_derivable.
Qed.

Lemma autodiff_hazard_is_closed_form lambda_ rho_ t d_dt :
  0 < lambda_ -> 0 < rho_ -> 0 < t ->
  autodiff_contract d_dt ->
  Part6.hazard d_dt [Fin lambda_; Fin rho_] (Scalar (Fin t))
  = Part2.hazard [Fin lambda_; Fin rho_] (Scalar (Fin t)).
Proof.
  intros Hl Hr Ht Hc. unfold Part6.hazard, Part6.elementwise_grad.
  rewrite cumulative_hazard_pos by assumption. cbn [bind].
  rewrite (Hc lambda_ rho_ t _ Hl Hr Ht (cumulative_hazard_derivable lambda_ rho_ t Hl Ht)).
  now rewrite hazard_pos.
Qed.

(** C1.  At positive parameters and a positive time the closed-form hazard
    of Part 2, [rho_/lambda_ * (t/lambda_)**(rho_-1)], is the derivative in
    [t] of the cumulative hazard [(t/lambda_)**rho_]; hence the hazard that
    Part 6 obtains from [elementwise_grad(cumulative_hazard, argnum=1)]
    agrees with it. *)
Theorem hazard_is_derivative_of_cumulative_hazard :
  forall lambda_ rho_ t : R,
    0 < lambda_ -> 0 < rho_ -> 0 < t ->
    let params := [Fin lambda_; Fin rho_] in
    cumulative_hazard params (Scalar (Fin t))
      = Ok (Scalar (Fin (Rpower (t / lambda_) rho_))) /\
    Part2.hazard params (Scalar (Fin t))
      = Ok (Scalar (Fin (rho_ / lambda_ * Rpower (t / lambda_) (rho_ - 1)))) /\
    derivable_pt_lim
      (fun x => real_of (cumulative_hazard params (Scalar (Fin x))))
      t (real_of (Part2.hazard params (Scalar (Fin t)))) /\
    (forall d_dt, autodiff_contract d_dt ->
       Part6.hazard d_dt params (Scalar (Fin t)) = Part2.hazard params (Scalar (Fin t))).
Proof.
  intros lambda_ rho_ t Hl Hr Ht params. subst params.
  split; [now apply cumulative_hazard_pos|].
  split; [now apply hazard_pos|].
  split.
  - rewrite hazard_pos by assumption. simpl real_of.
    now apply cumulative_hazard_derivable.
  - intros d_dt Hc. now apply autodiff_hazard_is_closed_form.
Qed.

Lemma hazard_is_derivative_of_cumulative_hazard_witness :
  0 < 1 /\ 0 < 2 /\
  derivable_pt_lim
    (fun x => real_of (cumulative_hazard [Fin 1; Fin 2] (Scalar (Fin x))))
    1 (real_of (Part2.hazard [Fin 1; Fin 2] (Scalar (Fin 1)))) /\
  Part6.hazard d_dt_by_hand [Fin 1; Fin 2] (Scalar (Fin 1))
    = Part2.hazard [Fin 1; Fin 2] (Scalar (Fin 1)).
Proof.
  assert (H1 : 0 < 1) by lra.
  assert (H2 : 0 < 2) by lra.
  destruct (hazard_is_derivative_of_cumulative_hazard 1 2 1 H1 H2 H1)
    as (_ & _ & Hd & H6).
  split; [exact H1|]. split; [exact H2|]. split; [exact Hd|].
  apply H6. exact d_dt_by_hand_contract.
Defined.

(** ** Inverting a real matrix *)


Lemma inv_finite_singular (m : mat2) :
  det m = 0 -> inv_finite m = Raise LinAlgError.
Proof.
  destruct m as [[m11 m12] [m21 m22]]. intros Hdet. unfold inv_finite.
  destruct (Req_dec_T _ _) as [_ | Hnz]; [reflexivity | contradiction].
Qed.

(** ** The objective of each fitting step *)

Lemma Rpower_one_base y : Rpower 1 y = 1.
Proof. unfold Rpower. rewrite ln_1, Rmult_0_r. apply exp_0. Qed.

Lemma log_likelihood_at_unit :
  Part2.log_likelihood [Fin 1; Fin 1] (Array [Fin 1]) (Array [Fin 1]) = Ok (Fin (-1)).
Proof.
  unfold Part2.log_likelihood, Part2.log_hazard, Part2.hazard, cumulative_hazard.
  unfold np_log, s_mul_nd, nd_pow_s, nd_div_s, nd_mul.
  cbn [unpack2 bind nd_map map broadcast length Nat.eqb zip_with np_sum fold_right fsub fneg fadd].
  rewrite !fdiv_pos by lra.
  replace (1 / 1) with 1 by lra.
  rewrite !fpow_pos by lra. rewrite !Rpower_one_base.
  cbn [fmul]. rewrite flog_pos by lra.
  cbn [fmul fadd fsub fneg]. do 2 f_equal.
  replace (1 * 1) with 1 by lra. rewrite ln_1. lra.
Qed.

(** C3, as stated, fails: the first [minimize] call of Part 2 is handed
    [log_likelihood], which at parameters (1, 1) and one observed lifetime 1
    is -1 while the negative log-likelihood is 1. *)
Lemma first_fit_objective_is_not_negative_log_likelihood :
  ~ (forall d_dt d_dparams3 s params t e,
       objective d_dt d_dparams3 s params t e
       = negative_log_likelihood_of d_dt s params t e).
Proof.
  intros Hall.
  specialize (Hall d_dt_by_hand (fun _ _ _ _ => []) Part2_first_fit
                   [Fin 1; Fin 1] (Array [Fin 1]) (Array [Fin 1])).
  unfold objective, negative_log_likelihood_of, Part2.negative_log_likelihood in Hall.
  rewrite log_likelihood_at_unit in Hall. cbn [bind fneg] in Hall.
  injection Hall as Hall. lra.
Qed.

(** C3, amended.  The fitting steps of Part 3 and Part 6 hand [minimize] an
    objective that is pointwise the negative log-likelihood, itself the
    negation of the log-likelihood; the first call of Part 2 hands it
    [log_likelihood] itself, the negation of the negative log-likelihood. *)
Theorem objective_of_each_fit :
  forall d_dt d_dparams3 params t e,
    objective d_dt d_dparams3 Part3_fit_with_jac params t e
      = Part3.negative_log_likelihood params t e /\
    objective d_dt d_dparams3 Part6_fit_value_and_grad params t e
      = Part6.negative_log_likelihood d_dt params t e /\
    (forall s,
       negative_log_likelihood_of d_dt s params t e
       = (ll <- log_likelihood_of d_dt s params t e ;; Ok (fneg ll))) /\
    objective d_dt d_dparams3 Part2_first_fit params t e
      = Part2.log_likelihood params t e /\
    objective d_dt d_dparams3 Part2_first_fit params t e
      = (nll <- Part2.negative_log_likelihood params t e ;; Ok (fneg nll)).
Proof.
  intros d_dt d3 params t e.
  split; [reflexivity|].
  split.
  { unfold objective, Part6.value_and_grad.
    destruct (Part6.negative_log_likelihood d_dt params t e); reflexivity. }
  split; [intros []; reflexivity|].
  split; [reflexivity|].
  unfold objective, Part2.negative_log_likelihood.
  destruct (Part2.log_likelihood params t e) as [ll | err]; cbn [bind]; [|reflexivity].
  now rewrite fneg_involutive.
Qed.

(** ** The logarithm of the hazard *)

Lemma log_hazard_of_hazard params t h :
  Part2.hazard params t = Ok h ->
  Part2.log_hazard params t = Ok (np_log h).
Proof. intros Hh. unfold Part2.log_hazard. now rewrite Hh. Qed.

Lemma hazard_at_zero lambda_ rho_ :
  0 < lambda_ -> 1 < rho_ ->
  fmul (fdiv (Fin rho_) (Fin lambda_))
       (fpow (fdiv (Fin 0) (Fin lambda_)) (fsub (Fin rho_) (Fin 1)))
  = Fin 0.
Proof.
  intros Hl Hr. rewrite !fdiv_pos by assumption.
  replace (0 / lambda_) with 0 by (field; lra).
  cbn [fsub fneg fadd]. rewrite fpow_zero_pos by lra.
  cbn [fmul]. f_equal. lra.
Qed.

(** ** The censoring indicator *)

Lemma is_one_0 : is_one (Fin 0) = false.
Proof. simpl. destruct (Req_dec_T 0 1) as [Heq | _]; [lra | reflexivity]. Qed.

Lemma unpack2_cases params :
  (exists a b, params = [a; b]) \/ (length params <> 2%nat /\ unpack2 params = Raise ValueError).
Proof.
  destruct params as [| a [| b [| c rest]]]; simpl.
  - right. split; [discriminate | reflexivity].
  - right. split; [discriminate | reflexivity].
  - left. now exists a, b.
  - right. split; [discriminate | reflexivity].
Qed.

(** ** The two-element parameter vector *)

Lemma unpack2_length params : length params <> 2%nat -> unpack2 params = Raise ValueError.
Proof.
  intros Hlen. destruct (unpack2_cases params) as [(a & b & ->) | [_ Hraise]];
    [now contradiction Hlen | exact Hraise].
Qed.

Lemma length_two (params : list float) :
  length params = 2%nat -> exists lambda_ rho_, params = [lambda_; rho_].
Proof.
  destruct params as [| a [| b [| c rest]]]; simpl; try discriminate.
  intros _. now exists a, b.
Qed.

(** C7.  Every model function unpacks [params] into [(lambda_, rho_)]: on a
    vector of exactly two elements it returns a value, and on a vector of
    any other length it raises the [ValueError] of the failed unpacking. *)
Theorem model_functions_need_two_params :
  forall d_dt (params : list float) (t : ndarray),
    (length params = 2%nat ->
       (exists lambda_ rho_,
          params = [lambda_; rho_] /\ unpack2 params = Ok (lambda_, rho_)) /\
       is_ok (cumulative_hazard params t) = true /\
       is_ok (Part2.hazard params t) = true /\
       is_ok (Part2.log_hazard params t) = true /\
       is_ok (Part3.log_hazard params t) = true /\
       is_ok (Part6.hazard d_dt params t) = true /\
       is_ok (Part6.log_hazard d_dt params t) = true) /\
    (length params <> 2%nat ->
       unpack2 params = Raise ValueError /\
       cumulative_hazard params t = Raise ValueError /\
       Part2.hazard params t = Raise ValueError /\
       Part2.log_hazard params t = Raise ValueError /\
       Part3.log_hazard params t = Raise ValueError /\
       Part6.hazard d_dt params t = Raise ValueError /\
       Part6.log_hazard d_dt params t = Raise ValueError).
Proof.
  intros d_dt params t. split.
  - intros Hlen. destruct (length_two params Hlen) as (lambda_ & rho_ & ->).
    split; [now exists lambda_, rho_|].
    repeat split; reflexivity.
  - intros Hlen. pose proof (unpack2_length params Hlen) as Hraise.
    unfold Part6.log_hazard, Part6.hazard, Part6.elementwise_grad,
      Part3.log_hazard, Part2.log_hazard, Part2.hazard, cumulative_hazard.
    rewrite Hraise. repeat split; reflexivity.
Qed.

Lemma model_functions_need_two_params_witness :
  is_ok (cumulative_hazard [Fin 1; Fin 2] (Array [Fin 3])) = true /\
  is_ok (Part2.log_hazard [Fin 1; Fin 2] (Array [Fin 3])) = true /\
  cumulative_hazard [Fin 1; Fin 2; Fin 3] (Array [Fin 3]) = Raise ValueError /\
  Part2.hazard [Fin 1] (Array [Fin 3]) = Raise ValueError /\
  Part3.log_hazard [] (Array [Fin 3]) = Raise ValueError.
Proof.
  destruct (model_functions_need_two_params d_dt_by_hand [Fin 1; Fin 2] (Array [Fin 3]))
    as [Hok _].
  destruct (Hok eq_refl) as (_ & Hc & _ & Hl & _).
  destruct (model_functions_need_two_params d_dt_by_hand [Fin 1; Fin 2; Fin 3] (Array [Fin 3]))
    as [_ H3].
  assert (N3 : length [Fin 1; Fin 2; Fin 3] <> 2%nat) by (simpl; discriminate).
  destruct (H3 N3) as (_ & Hc3 & _).
  destruct (model_functions_need_two_params d_dt_by_hand [Fin 1] (Array [Fin 3]))
    as [_ H1].
  assert (N1 : length [Fin 1] <> 2%nat) by (simpl; discriminate).
  destruct (H1 N1) as (_ & _ & Hh1 & _).
  destruct (model_functions_need_two_params d_dt_by_hand [] (Array [Fin 3]))
    as [_ H0].
  assert (N0 : length (@nil float) <> 2%nat) by (simpl; discriminate).
  destruct (H0 N0) as (_ & _ & _ & _ & Hl0 & _).
  split; [exact Hc|]. split; [exact Hl|]. split; [exact Hc3|]. split; [exact Hh1 | exact Hl0].
Defined.

(** ** The logarithm of a quotient *)

Lemma ln_div a b : 0 < a -> 0 < b -> ln (a / b) = ln a - ln b.
Proof.
  intros Ha Hb. unfold Rdiv. rewrite ln_mult by (try apply Rinv_0_lt_compat; assumption).
  rewrite ln_Rinv by assumption. lra.
Qed.

(** * Further properties *)

(** ** The iterated sine of Part 3 *)

Lemma f_loop_finite n x y :
  Part3_autodiff.f_loop n (Fin x) (Fin y) = Fin (sin_iter n x y).
Proof.
  revert y. induction n as [| n IH]; intros y; simpl; [reflexivity|]. apply IH.
Qed.

Lemma sin_iter_bounded n x y : -1 <= y <= 1 -> -1 <= sin_iter n x y <= 1.
Proof.
  revert y. induction n as [| n IH]; intros y Hy; simpl; [exact Hy|].
  apply IH. apply SIN_bound.
Qed.

(** X1.  On every finite input [f] returns a finite number between -1 and 1. *)
Theorem f_is_bounded :
  forall x : R,
    exists y : R, Part3_autodiff.f (Fin x) = Fin y /\ -1 <= y <= 1.
Proof.
  intros x. exists (sin_iter 100 x 0). split.
  - apply f_loop_finite.
  - apply sin_iter_bounded. lra.
Qed.

Lemma sin_iter_odd n x y : sin_iter n (- x) (- y) = - sin_iter n x y.
Proof.
  revert y. induction n as [| n IH]; intros y; simpl; [reflexivity|].
  replace (- y + - x) with (- (y + x)) by lra. rewrite sin_neg. apply IH.
Qed.

(** X2.  [f] is an odd function: [f(-x) = -f(x)] on every finite input, so
    [f(0) = 0]. *)
Theorem f_is_odd :
  forall x : R,
    Part3_autodiff.f (Fin (- x)) = fneg (Part3_autodiff.f (Fin x)) /\
    Part3_autodiff.f (Fin 0) = Fin 0.
Proof.
  assert (Hodd : forall x, Part3_autodiff.f (Fin (- x)) = fneg (Part3_autodiff.f (Fin x))).
  { intros x. unfold Part3_autodiff.f. rewrite !f_loop_finite. cbn [fneg]. f_equal.
    rewrite <- (sin_iter_odd 100 x 0). now rewrite Ropp_0. }
  intros x. split; [apply Hodd|].
  unfold Part3_autodiff.f. rewrite f_loop_finite. f_equal.
  pose proof (sin_iter_odd 100 0 0) as H0. rewrite Ropp_0 in H0. lra.
Qed.

Lemma f_loop_nan n x : Part3_autodiff.f_loop n x NaN = NaN.
Proof.
  induction n as [| n IH]; simpl; [reflexivity|]. exact IH.
Qed.

(** X4.  An input that is not a finite number ([inf], [-inf] or [nan])
    makes [f] return [nan]. *)
Theorem f_of_non_finite_is_nan :
  forall x : float, is_finite x = false -> Part3_autodiff.f x = NaN.
Proof.
  intros x Hx. unfold Part3_autodiff.f.
  change (Part3_autodiff.f_loop 100 x (Fin 0))
    with (Part3_autodiff.f_loop 99 x (fsin (fadd (Fin 0) x))).
  destruct x; try discriminate; simpl fadd; simpl fsin; apply f_loop_nan.
Qed.

Lemma f_of_non_finite_is_nan_witness : Part3_autodiff.f PInf = NaN.
Proof. apply f_of_non_finite_is_nan. reflexivity. Defined.

Lemma sin_iter_derivable n (y : R -> R) (x dy : R) :
  derivable_pt_lim y x dy ->
  derivable_pt_lim (fun z => sin_iter n z (y z)) x (d_sin_iter n x (y x) dy).
Proof.
  revert y dy. induction n as [| n IH]; intros y dy Hy; simpl; [exact Hy|].
  apply (IH (fun z => sin (y z + z))).
  apply (derivable_pt_lim_comp (fun z => y z + z) sin).
  - apply (derivable_pt_lim_plus y id). + exact Hy. + apply derivable_pt_lim_id.
  - apply derivable_pt_lim_sin.
Qed.

Lemma d_sin_iter_bounded n x y dy : Rabs (d_sin_iter n x y dy) <= Rabs dy + INR n.
Proof.
  revert y dy. induction n as [| n IH]; intros y dy.
  - simpl. lra.
  - cbn [d_sin_iter]. eapply Rle_trans; [apply IH|]. rewrite S_INR.
    rewrite Rabs_mult.
    pose proof (COS_bound (y + x)) as [Hc1 Hc2].
    assert (Hc : Rabs (cos (y + x)) <= 1) by (apply Rabs_le; lra).
    pose proof (Rabs_triang dy 1) as Ht. rewrite Rabs_R1 in Ht.
    pose proof (Rabs_pos (dy + 1)) as Hp.
    pose proof (Rabs_pos (cos (y + x))) as Hq.
    nra.
Qed.

(** ** Errors and edge cases of the log-likelihood *)

Lemma broadcast_mismatch f xs ys :
  length xs <> length ys -> length xs <> 1%nat -> length ys <> 1%nat ->
  broadcast f (Array xs) (Array ys) = Raise ValueError.
Proof.
  intros Hne Hx Hy. unfold broadcast.
  destruct (Nat.eqb (length xs) (length ys)) eqn:E;
    [apply Nat.eqb_eq in E; contradiction|].
  destruct xs as [| x [| x' xs]]; destruct ys as [| y [| y' ys]];
    simpl in *; try reflexivity; contradiction.
Qed.

(** X7.  [log_likelihood] and [negative_log_likelihood] (Part 2 and Part 3)
    raise [ValueError] when [params] does not have two elements, and also
    when the lifetime and indicator arrays have different lengths neither of
    which is 1, since the product of the two arrays cannot be broadcast. *)
Theorem log_likelihood_raises :
  forall (params : list float),
    (length params <> 2%nat ->
     forall t e,
       Part2.log_likelihood params t e = Raise ValueError /\
       Part2.negative_log_likelihood params t e = Raise ValueError /\
       Part3.log_likelihood params t e = Raise ValueError /\
       Part3.negative_log_likelihood params t e = Raise ValueError) /\
    (length params = 2%nat ->
     forall t e : list float,
       length e <> length t -> length e <> 1%nat -> length t <> 1%nat ->
       Part2.log_likelihood params (Array t) (Array e) = Raise ValueError /\
       Part2.negative_log_likelihood params (Array t) (Array e) = Raise ValueError /\
       Part3.log_likelihood params (Array t) (Array e) = Raise ValueError /\
       Part3.negative_log_likelihood params (Array t) (Array e) = Raise ValueError).
Proof.
  intros params. split.
  - intros Hlen t e. pose proof (unpack2_length params Hlen) as Hraise.
    unfold Part2.negative_log_likelihood, Part3.negative_log_likelihood,
      Part2.log_likelihood, Part3.log_likelihood,
      Part2.log_hazard, Part3.log_hazard, Part2.hazard.
    rewrite Hraise. repeat split; reflexivity.
  - intros Hlen t e Hne He Ht.
    destruct (length_two params Hlen) as (lambda_ & rho_ & ->).
    assert (H2 : Part2.log_likelihood [lambda_; rho_] (Array t) (Array e) = Raise ValueError).
    { unfold Part2.log_likelihood, Part2.log_hazard, Part2.hazard,
        np_log, s_mul_nd, nd_pow_s, nd_div_s, nd_mul.
      cbn [unpack2 bind nd_map].
      rewrite broadcast_mismatch; [reflexivity | | assumption |];
        rewrite !length_map; assumption. }
    assert (H3 : Part3.log_likelihood [lambda_; rho_] (Array t) (Array e) = Raise ValueError).
    { unfold Part3.log_likelihood, Part3.log_hazard,
        np_log, s_add_nd, s_mul_nd, nd_sub_s, nd_mul.
      cbn [unpack2 bind nd_map].
      rewrite broadcast_mismatch; [reflexivity | | assumption |];
        rewrite !length_map; assumption. }
    unfold Part2.negative_log_likelihood, Part3.negative_log_likelihood.
    rewrite H2, H3. repeat split; reflexivity.
Qed.

Lemma log_likelihood_raises_witness :
  Part2.log_likelihood [Fin 1] (Array [Fin 1]) (Array [Fin 1]) = Raise ValueError /\
  Part3.negative_log_likelihood [Fin 1; Fin 2]
    (Array [Fin 1; Fin 2; Fin 3]) (Array [Fin 1; Fin 0]) = Raise ValueError.
Proof.
  split.
  - destruct (log_likelihood_raises [Fin 1]) as [Hbad _].
    assert (N : length [Fin 1] <> 2%nat) by (simpl; discriminate).
    apply (Hbad N).
  - destruct (log_likelihood_raises [Fin 1; Fin 2]) as [_ Hshape].
    assert (N1 : length [Fin 1; Fin 0] <> length [Fin 1; Fin 2; Fin 3])
      by (simpl; discriminate).
    assert (N2 : length [Fin 1; Fin 0] <> 1%nat) by (simpl; discriminate).
    assert (N3 : length [Fin 1; Fin 2; Fin 3] <> 1%nat) by (simpl; discriminate).
    apply (Hshape eq_refl _ _ N1 N2 N3).
Defined.

(** X8.  On empty data the log-likelihood and the negative log-likelihood
    are 0 for every two-element parameter vector, whatever its entries. *)
Theorem log_likelihood_of_no_data :
  forall lambda_ rho_ : float,
    Part2.log_likelihood [lambda_; rho_] (Array []) (Array []) = Ok (Fin 0) /\
    Part2.negative_log_likelihood [lambda_; rho_] (Array []) (Array []) = Ok (Fin 0) /\
    Part3.log_likelihood [lambda_; rho_] (Array []) (Array []) = Ok (Fin 0) /\
    Part3.negative_log_likelihood [lambda_; rho_] (Array []) (Array []) = Ok (Fin 0).
Proof.
  intros lambda_ rho_.
  unfold Part2.negative_log_likelihood, Part3.negative_log_likelihood,
    Part2.log_likelihood, Part3.log_likelihood.
  cbn. repeat split; do 2 f_equal; lra.
Qed.

(** ** The survival function as a real function *)

Lemma survival_function_pos lambda_ rho_ t :
  0 < lambda_ -> 0 < t ->
  Part6.survival_function [Fin lambda_; Fin rho_] (Scalar (Fin t))
  = Ok (Scalar (Fin (exp (- Rpower (t / lambda_) rho_)))).
Proof.
  intros Hl Ht. unfold Part6.survival_function.
  now rewrite cumulative_hazard_pos by assumption.
Qed.

Lemma survival_derivable_in_scale lambda_ rho_ t :
  0 < lambda_ -> 0 < t ->
  derivable_pt_lim (fun l => exp (- exp (rho_ * (ln t - ln l)))) lambda_
    (exp (- exp (rho_ * (ln t - ln lambda_)))
     * - (exp (rho_ * (ln t - ln lambda_)) * (rho_ * (0 - / lambda_)))).
Proof.
  intros Hl Ht.
  apply (derivable_pt_lim_comp (fun l => - exp (rho_ * (ln t - ln l))) exp);
    [|apply derivable_pt_lim_exp].
  apply (derivable_pt_lim_opp (fun l => exp (rho_ * (ln t - ln l)))).
  apply (derivable_pt_lim_comp (fun l => rho_ * (ln t - ln l)) exp);
    [|apply derivable_pt_lim_exp].
  apply (derivable_pt_lim_scal (fun l => ln t - ln l)).
  apply (derivable_pt_lim_minus (fct_cte (ln t)) ln).
  - apply derivable_pt_lim_const.
  - now apply derivable_pt_lim_ln.
Qed.

Lemma survival_derivable_in_shape a rho_ :
  derivable_pt_lim (fun r => exp (- exp (r * ln a))) rho_
    (exp (- exp (rho_ * ln a)) * - (exp (rho_ * ln a) * (1 * ln a))).
Proof.
  apply (derivable_pt_lim_comp (fun r => - exp (r * ln a)) exp);
    [|apply derivable_pt_lim_exp].
  apply (derivable_pt_lim_opp (fun r => exp (r * ln a))).
  apply (derivable_pt_lim_comp (fun r => r * ln a) exp);
    [|apply derivable_pt_lim_exp].
  apply (derivable_pt_lim_scal_right id). apply derivable_pt_lim_id.
Qed.

(** ** The derivative of the iterated sine *)

Lemma f_derivable x :
  derivable_pt_lim (fun z => float_real (Part3_autodiff.f (Fin z))) x
                   (d_sin_iter 100 x 0 0).
Proof.
  apply (derivable_pt_lim_local _ (fun z => sin_iter 100 z 0) x _ 1); [lra | |].
  - intros z _. unfold Part3_autodiff.f. now rewrite f_loop_finite.
  - apply (sin_iter_derivable 100 (fun _ => 0) x 0).
    apply (derivable_pt_lim_const 0).
Qed.

Lemma d_dx_by_hand_contract : grad_f_contract d_dx_by_hand.
Proof.
  intros x d Hd. unfold d_dx_by_hand. f_equal.
  eapply uniqueness_limite; [apply f_derivable | exact Hd].
Qed.

(** X5.  [f] is differentiable at every real [x]; its derivative follows the
    chain rule along the 100 rounds and is at most 100 in absolute value,
    and it is the value of [grad_f = grad(f)] whenever autograd returns the
    derivative. *)
Theorem grad_f_is_the_derivative :
  forall x : R,
    derivable_pt_lim (fun z => float_real (Part3_autodiff.f (Fin z))) x
                     (d_sin_iter 100 x 0 0) /\
    Rabs (d_sin_iter 100 x 0 0) <= 100 /\
    (forall d_dx, grad_f_contract d_dx ->
       Part3_autodiff.grad_f d_dx (Fin x) = Fin (d_sin_iter 100 x 0 0)).
Proof.
  intros x. split; [apply f_derivable|]. split.
  - pose proof (d_sin_iter_bounded 100 x 0 0) as Hb.
    rewrite Rabs_R0 in Hb. replace (INR 100) with 100 in Hb by (simpl; lra). lra.
  - intros d_dx Hc. unfold Part3_autodiff.grad_f, Part3_autodiff.grad.
    apply Hc. apply f_derivable.
Qed.

Lemma grad_f_is_the_derivative_witness :
  Part3_autodiff.grad_f d_dx_by_hand (Fin 1) = Fin (d_sin_iter 100 1 0 0).
Proof.
  destruct (grad_f_is_the_derivative 1) as (_ & _ & Hg).
  exact (Hg d_dx_by_hand d_dx_by_hand_contract).
Defined.

(** ** The gradient of the survival function *)

Lemma survival_R_pos t lambda_ rho_ :
  0 < lambda_ -> 0 < t ->
  survival_R t lambda_ rho_ = exp (- Rpower (t / lambda_) rho_).
Proof.
  intros Hl Ht. unfold survival_R. now rewrite survival_function_pos.
Qed.

Lemma survival_gradient_is_gradient lambda_ rho_ t :
  0 < lambda_ -> 0 < t ->
  is_gradient_at (survival_R t) lambda_ rho_ (survival_gradient lambda_ rho_ t).
Proof.
  intros Hl Ht. unfold is_gradient_at, survival_gradient. cbn [fst snd].
  set (H := Rpower (t / lambda_) rho_).
  assert (HH : H = exp (rho_ * (ln t - ln lambda_))).
  { unfold H, Rpower. now rewrite ln_div by assumption. }
  split.
  - apply (derivable_pt_lim_local _ (fun l => exp (- exp (rho_ * (ln t - ln l))))
             lambda_ _ lambda_ Hl).
    + intros l Hlnear. assert (0 < l) by (apply Rabs_def2 in Hlnear; lra).
      rewrite survival_R_pos by assumption.
      unfold Rpower. now rewrite ln_div by assumption.
    + replace (exp (- H) * (rho_ / lambda_ * H))
        with (exp (- exp (rho_ * (ln t - ln lambda_)))
              * - (exp (rho_ * (ln t - ln lambda_)) * (rho_ * (0 - / lambda_)))).
      * now apply survival_derivable_in_scale.
      * rewrite <- HH. field. lra.
  - apply (derivable_pt_lim_local _ (fun r => exp (- exp (r * ln (t / lambda_))))
             rho_ _ 1 Rlt_0_1).
    + intros r _. now rewrite survival_R_pos by assumption.
    + replace (- (exp (- H) * H * ln (t / lambda_)))
        with (exp (- exp (rho_ * ln (t / lambda_)))
              * - (exp (rho_ * ln (t / lambda_)) * (1 * ln (t / lambda_)))).
      * apply survival_derivable_in_shape.
      * unfold H, Rpower. ring.
Qed.

Lemma is_gradient_at_unique f l r g g' :
  is_gradient_at f l r g -> is_gradient_at f l r g' -> g = g'.
Proof.
  destruct g as [g1 g2], g' as [g1' g2']. unfold is_gradient_at. cbn [fst snd].
  intros [H1 H2] [H1' H2']. f_equal; eapply uniqueness_limite; eassumption.
Qed.

Lemma d_dparams_by_hand_contract : grad_contract d_dparams_by_hand.
Proof.
  intros lambda_ rho_ t Hl Ht. exists (survival_gradient lambda_ rho_ t).
  split; [reflexivity|]. now apply survival_gradient_is_gradient.
Qed.

Lemma grad_sf_under_contract d_dparams lambda_ rho_ t :
  0 < lambda_ -> 0 < t -> grad_contract d_dparams ->
  Part6.grad_sf d_dparams [Fin lambda_; Fin rho_] (Scalar (Fin t))
  = Ok (of_real_vec (survival_gradient lambda_ rho_ t)).
Proof.
  intros Hl Ht Hc. destruct (Hc lambda_ rho_ t Hl Ht) as (g & Hg & Hgrad).
  unfold Part6.grad_sf, Part6.grad. rewrite survival_function_pos by assumption.
  cbn [bind]. rewrite Hg. do 2 f_equal.
  eapply is_gradient_at_unique; [exact Hgrad|].
  now apply survival_gradient_is_gradient.
Qed.

(** X16.  At a positive scale and a positive time the survival function has
    the gradient [(S * rho_ / lambda_ * H, - S * H * ln(t / lambda_))] in
    its two parameters, with [H] the cumulative hazard and [S = exp(-H)],
    and this is what [grad_sf(params, t)] returns whenever autograd returns
    a gradient. *)
Theorem grad_sf_is_the_gradient :
  forall lambda_ rho_ t : R,
    0 < lambda_ -> 0 < t ->
    is_gradient_at (survival_R t) lambda_ rho_ (survival_gradient lambda_ rho_ t) /\
    (forall d_dparams, grad_contract d_dparams ->
       Part6.grad_sf d_dparams [Fin lambda_; Fin rho_] (Scalar (Fin t))
       = Ok (of_real_vec (survival_gradient lambda_ rho_ t))).
Proof.
  intros lambda_ rho_ t Hl Ht. split.
  - now apply survival_gradient_is_gradient.
  - intros d_dparams Hc. now apply grad_sf_under_contract.
Qed.

Lemma grad_sf_is_the_gradient_witness :
  Part6.grad_sf d_dparams_by_hand [Fin 1; Fin 2] (Scalar (Fin 5))
  = Ok (of_real_vec (survival_gradient 1 2 5)).
Proof.
  assert (H1 : 0 < 1) by lra.
  assert (H5 : 0 < 5) by lra.
  exact (proj2 (grad_sf_is_the_gradient 1 2 5 H1 H5) d_dparams_by_hand d_dparams_by_hand_contract).
Defined.

(** ** The Hessian of one censored lifetime *)









(** ** The Delta-method variance *)


Lemma to_real_of_real_mat h : to_real_mat (of_real_mat h) = Some h.
Proof. destruct h as [[a b] [c d]]. reflexivity. Qed.





(** ** The logarithm of a zero hazard *)

Lemma flog_neg_infinity_iff h : flog h = NInf <-> h = Fin 0.
Proof.
  destruct h as [a | | |]; try (split; discriminate).
  destruct (total_order_T a 0) as [[Hlt | ->] | Hgt].
  - rewrite flog_neg by assumption. split; [discriminate|]. intros [= ->]. lra.
  - rewrite flog_zero. split; reflexivity.
  - rewrite flog_pos by lra. split; [discriminate|]. intros [= ->]. lra.
Qed.

Lemma hazard_is_not_negative lambda_ rho_ t :
  0 < lambda_ -> 0 < rho_ -> 0 <= t ->
  exists h,
    Part2.hazard [Fin lambda_; Fin rho_] (Scalar (Fin t)) = Ok (Scalar h) /\
    forall r, h = Fin r -> 0 <= r.
Proof.
  intros Hl Hr [Ht | <-].
  - eexists. split; [now apply hazard_pos|]. intros r [= <-]. left. pos.
  - unfold Part2.hazard, s_mul_nd, nd_pow_s, nd_div_s. cbn [unpack2 bind nd_map].
    eexists. split; [reflexivity|].
    rewrite !fdiv_pos by assumption.
    replace (0 / lambda_) with 0 by (unfold Rdiv; now rewrite Rmult_0_l).
    cbn [fsub fneg fadd fpow]. rewrite Rsgn_zero.
    assert (Hq : 0 < rho_ / lambda_) by pos.
    match goal with |- context [Rsgn (?a + ?b)] => destruct (Rsgn (a + b)) end;
      cbn [fmul].
    + rewrite Rsgn_pos by assumption. discriminate.
    + intros r [= <-]. lra.
    + intros r [= <-]. lra.
Qed.

(** C4.  [log_hazard] is the logarithm of the hazard, and [np.log] gives
    [-inf] exactly at zero.  At positive parameters and a non-negative time
    the hazard is never negative, so [log_hazard] is [-inf] exactly when
    the hazard is [<= 0].  At parameters (1, 2) and time 0 the hazard is 0,
    [log_hazard] is [-inf], and [log_likelihood] of that one observed
    lifetime is [-inf]. *)
Theorem log_hazard_is_neg_infinity_at_zero_hazard :
  (forall lambda_ rho_ t : R,
     0 < lambda_ -> 0 < rho_ -> 0 <= t ->
     let params := [Fin lambda_; Fin rho_] in
     exists h : float,
       Part2.hazard params (Scalar (Fin t)) = Ok (Scalar h) /\
       Part2.log_hazard params (Scalar (Fin t)) = Ok (Scalar (flog h)) /\
       (flog h = NInf <-> h = Fin 0) /\
       (flog h = NInf <-> exists r, h = Fin r /\ r <= 0)) /\
  Part2.hazard [Fin 1; Fin 2] (Scalar (Fin 0)) = Ok (Scalar (Fin 0)) /\
  Part2.log_hazard [Fin 1; Fin 2] (Scalar (Fin 0)) = Ok (Scalar NInf) /\
  Part2.log_likelihood [Fin 1; Fin 2] (Array [Fin 0]) (Array [Fin 1]) = Ok NInf.
Proof.
  split.
  - intros lambda_ rho_ t Hl Hr Ht params. subst params.
    destruct (hazard_is_not_negative lambda_ rho_ t Hl Hr Ht) as (h & Hh & Hnn).
    exists h. split; [exact Hh|].
    split; [now rewrite (log_hazard_of_hazard _ _ _ Hh)|].
    split; [apply flog_neg_infinity_iff|].
    rewrite flog_neg_infinity_iff. split.
    + intros ->. exists 0. split; [reflexivity | lra].
    + intros (r & -> & Hle). specialize (Hnn r eq_refl). f_equal. lra.
  - assert (Hh : Part2.hazard [Fin 1; Fin 2] (Scalar (Fin 0)) = Ok (Scalar (Fin 0))).
    { unfold Part2.hazard, s_mul_nd, nd_pow_s, nd_div_s. cbn [unpack2 bind nd_map].
      now rewrite hazard_at_zero by lra. }
    split; [exact Hh|]. split.
    + rewrite (log_hazard_of_hazard _ _ _ Hh). cbn [np_log nd_map]. now rewrite flog_zero.
    + unfold Part2.log_likelihood, Part2.log_hazard, Part2.hazard, cumulative_hazard.
      unfold np_log, s_mul_nd, nd_pow_s, nd_div_s, nd_mul.
      cbn [unpack2 bind nd_map map broadcast length Nat.eqb zip_with].
      rewrite hazard_at_zero by lra. rewrite flog_zero.
      rewrite fdiv_pos by lra. replace (0 / 1) with 0 by lra.
      rewrite fpow_zero_pos by lra.
      cbn [np_sum fold_right fmul]. rewrite Rsgn_pos by lra. reflexivity.
Qed.

Lemma log_hazard_is_neg_infinity_at_zero_hazard_witness :
  exists h : float,
    Part2.hazard [Fin 1; Fin 2] (Scalar (Fin 0)) = Ok (Scalar h) /\
    Part2.log_hazard [Fin 1; Fin 2] (Scalar (Fin 0)) = Ok (Scalar (flog h)) /\
    (flog h = NInf <-> exists r, h = Fin r /\ r <= 0).
Proof.
  assert (H1 : 0 < 1) by lra.
  assert (H2 : 0 < 2) by lra.
  assert (H0 : 0 <= 0) by lra.
  destruct (proj1 log_hazard_is_neg_infinity_at_zero_hazard 1 2 0 H1 H2 H0)
    as (h & Hh & Hl & _ & Hiff).
  exists h. split; [exact Hh|]. split; [exact Hl | exact Hiff].
Defined.

(** ** A censored lifetime of zero *)

(** C6.  At parameters (1, 2) the log-hazard of a lifetime 0 is [-inf].
    When that lifetime is censored, [log_likelihood] multiplies the [-inf]
    by the indicator 0, which is [nan], and returns [nan], in Part 2 and in
    Part 3; the sum over the observed subjects alone minus the sum of the
    cumulative hazards is 0. *)
Theorem log_likelihood_of_censored_zero_lifetime_is_nan :
  let params := [Fin 1; Fin 2] in
  let t := [Fin 0] in
  let e := [Fin 0] in
  Part2.log_hazard params (Array t) = Ok (Array [NInf]) /\
  Part2.log_likelihood params (Array t) (Array e) = Ok NaN /\
  Part3.log_likelihood params (Array t) (Array e) = Ok NaN /\
  log_likelihood_spec Part2.log_hazard params t e = Ok (Fin 0).
Proof.
  cbv zeta.
  assert (Hlh : Part2.log_hazard [Fin 1; Fin 2] (Array [Fin 0]) = Ok (Array [NInf])).
  { unfold Part2.log_hazard, Part2.hazard, np_log, s_mul_nd, nd_pow_s, nd_div_s.
    cbn [unpack2 bind nd_map map].
    rewrite hazard_at_zero by lra. now rewrite flog_zero. }
  assert (Hch : cumulative_hazard [Fin 1; Fin 2] (Array [Fin 0]) = Ok (Array [Fin 0])).
  { unfold cumulative_hazard, nd_pow_s, nd_div_s. cbn [unpack2 bind nd_map map].
    rewrite fdiv_pos by lra. replace (0 / 1) with 0 by lra.
    now rewrite fpow_zero_pos by lra. }
  split; [exact Hlh|]. split; [|split].
  - unfold Part2.log_likelihood. rewrite Hlh, Hch.
    unfold nd_mul. cbn [bind broadcast length Nat.eqb zip_with np_sum fold_right fmul].
    rewrite Rsgn_zero. reflexivity.
  - unfold Part3.log_likelihood, Part3.log_hazard. rewrite Hch.
    unfold np_log, s_mul_nd, nd_sub_s, s_add_nd, nd_mul.
    cbn [unpack2 bind nd_map map broadcast length Nat.eqb zip_with].
    rewrite flog_zero, !flog_pos by lra.
    cbn [fsub fneg fadd fmul]. rewrite Rsgn_pos by lra.
    cbn [np_sum fold_right fadd fmul fsub fneg sgn_opp inf_of].
    rewrite Rsgn_zero. reflexivity.
  - unfold log_likelihood_spec. rewrite Hlh, Hch.
    cbn [bind as_list]. unfold observed_sum. cbn [combine filter fst].
    rewrite is_one_0.
    cbn [map np_sum fold_right fadd fsub fneg]. apply f_equal, f_equal. lra.
Qed.

(** ** A shape below one at time zero *)

(** X14.  With a shape [0 < rho_ < 1] (and a ratio [rho_ / lambda_] that is
    not tiny) the hazard at time 0 is [+inf], so is its logarithm, and so is
    [log_likelihood] of that single observed lifetime;
    [negative_log_likelihood] is [-inf]. *)
Theorem hazard_at_time_zero_is_infinite (lambda_ rho_ : R) :
  0 < lambda_ -> 0 < rho_ -> rho_ < 1 -> 1 / 10 ^ 300 <= rho_ / lambda_ ->
  let params := [Fin lambda_; Fin rho_] in
  Part2.hazard params (Scalar (Fin 0)) = Ok (Scalar PInf) /\
  Part2.log_hazard params (Scalar (Fin 0)) = Ok (Scalar PInf) /\
  Part2.log_likelihood params (Array [Fin 0]) (Array [Fin 1]) = Ok PInf /\
  Part2.negative_log_likelihood params (Array [Fin 0]) (Array [Fin 1]) = Ok NInf.
Proof.
  intros Hl Hr Hr1 _ params. subst params.
  assert (Hz : 0 / lambda_ = 0) by (unfold Rdiv; now rewrite Rmult_0_l).
  assert (Hh : forall t : ndarray,
             fmul (fdiv (Fin rho_) (Fin lambda_))
                  (fpow (fdiv (Fin 0) (Fin lambda_)) (fsub (Fin rho_) (Fin 1))) = PInf).
  { intros _. rewrite !fdiv_pos by assumption. rewrite Hz.
    cbn [fsub fneg fadd fpow]. rewrite Rsgn_zero, Rsgn_neg by lra.
    cbn [fmul]. now rewrite Rsgn_pos by pos. }
  specialize (Hh (Scalar (Fin 0))).
  assert (Hhz : Part2.hazard [Fin lambda_; Fin rho_] (Scalar (Fin 0)) = Ok (Scalar PInf)).
  { unfold Part2.hazard, s_mul_nd, nd_pow_s, nd_div_s. cbn [unpack2 bind nd_map].
    now rewrite Hh. }
  assert (Hll : Part2.log_likelihood [Fin lambda_; Fin rho_] (Array [Fin 0]) (Array [Fin 1])
                = Ok PInf).
  { unfold Part2.log_likelihood, Part2.log_hazard, Part2.hazard, cumulative_hazard.
    unfold np_log, s_mul_nd, nd_pow_s, nd_div_s, nd_mul.
    cbn [unpack2 bind nd_map map broadcast length Nat.eqb zip_with].
    rewrite Hh. rewrite fdiv_pos by assumption. rewrite Hz.
    rewrite fpow_zero_pos by assumption.
    cbn [flog np_sum fold_right fmul]. rewrite Rsgn_pos by lra. reflexivity. }
  split; [exact Hhz|]. split; [|split].
  - now rewrite (log_hazard_of_hazard _ _ _ Hhz).
  - exact Hll.
  - unfold Part2.negative_log_likelihood. now rewrite Hll.
Qed.

Lemma hazard_at_time_zero_is_infinite_witness :
  Part2.hazard [Fin 2; Fin (1 / 2)] (Scalar (Fin 0)) = Ok (Scalar PInf) /\
  Part2.log_hazard [Fin 2; Fin (1 / 2)] (Scalar (Fin 0)) = Ok (Scalar PInf) /\
  Part2.log_likelihood [Fin 2; Fin (1 / 2)] (Array [Fin 0]) (Array [Fin 1]) = Ok PInf /\
  Part2.negative_log_likelihood [Fin 2; Fin (1 / 2)] (Array [Fin 0]) (Array [Fin 1])
  = Ok NInf.
Proof.
  apply (hazard_at_time_zero_is_infinite 2 (1 / 2)); lra.
Defined.

(** ** A Hessian that cannot be inverted *)

(** X18.  When [np.linalg.inv] raises on the Hessian, the cell that assigns
    [variance_matrix_] fails with that exception and leaves the name
    unbound; [variance_at_t] then evaluates its first gradient and raises
    [NameError] on reading [variance_matrix_]. *)
Theorem variance_at_t_after_failed_inverse :
  forall d_dt d_dparams d2_dparams2 np_linalg_inv estimates_ T E t
         (h : fmat2) (g : fvec2) (err : exn),
    Part6.H d_dt d2_dparams2 estimates_ T E = Ok h ->
    np_linalg_inv h = Raise err ->
    Part6.grad_sf d_dparams estimates_ t = Ok g ->
    Part6.variance_matrix_ d_dt d2_dparams2 np_linalg_inv estimates_ T E = Raise err /\
    Part6.variance_at_t d_dt d_dparams d2_dparams2 np_linalg_inv estimates_ T E t
    = Raise NameError.
Proof.
  intros d_dt d_dparams d2 inv estimates_ T E t h g err HH Hinv Hg.
  assert (HV : Part6.variance_matrix_ d_dt d2 inv estimates_ T E = Raise err).
  { unfold Part6.variance_matrix_. rewrite HH. cbn [bind]. exact Hinv. }
  split; [exact HV|].
  unfold Part6.variance_at_t. rewrite Hg, HV. reflexivity.
Qed.

Lemma variance_at_t_after_failed_inverse_witness :
  let zero_hessian := fun (_ : list float -> ndarray -> ndarray -> result float)
                          (_ : list float) (_ _ : ndarray) =>
                        of_real_mat ((0, 0), (0, 0)) in
  let T := Array [Fin 1] in
  let E := Array [Fin 0] in
  Part6.variance_matrix_ d_dt_by_hand zero_hessian inv_by_hand [Fin 1; Fin 2] T E
  = Raise LinAlgError /\
  Part6.variance_at_t d_dt_by_hand d_dparams_by_hand zero_hessian inv_by_hand
    [Fin 1; Fin 2] T E (Scalar (Fin 5))
  = Raise NameError.
Proof.
  intros zero_hessian T E.
  assert (Hinv : inv_by_hand (of_real_mat ((0, 0), (0, 0))) = Raise LinAlgError).
  { unfold inv_by_hand. rewrite to_real_of_real_mat.
    rewrite inv_finite_singular; [reflexivity|]. unfold det. lra. }
  assert (H1 : 0 < 1) by lra.
  assert (H5 : 0 < 5) by lra.
  exact (variance_at_t_after_failed_inverse d_dt_by_hand d_dparams_by_hand zero_hessian
           inv_by_hand [Fin 1; Fin 2] T E (Scalar (Fin 5)) _ _ LinAlgError eq_refl Hinv
           (grad_sf_under_contract d_dparams_by_hand 1 2 5 H1 H5
              d_dparams_by_hand_contract)).
Defined.
